(** * tsc-options: Option helpers and the fetch helper

    A shallow embedding of the Option utilities ([some], [none],
    [OptionalCatch], [optionalResolve], [OptionalMap], [toOptional],
    [optionalDefined], [unwrap], [unwrapOr], [unwrapExpect]) and of
    [fetchWithOption], with the properties the specification states about
    them.

    Callbacks are JavaScript functions: they may read and write the world
    and they may throw.  A synchronous computation is therefore a function
    from a world to a completion and a new world; an [async] function body
    additionally may suspend for ever on a promise that never settles. *)

From Stdlib Require Import ZArith String List Bool Lia.
From stdpp Require Import base gmap strings pretty fin_maps.

Local Open Scope string_scope.
Local Open Scope Z_scope.

(** ** JavaScript values *)

(** The values the helpers inspect.  Numbers are kept at the precision the
    helpers need: integral values, and NaN for the truthiness coercion.
    [JError message] is an [Error] instance carrying [message]. *)
#[warnings="-register-all"]
Inductive JsVal : Type :=
| JUndefined
| JNull
| JBool (b : bool)
| JNum (n : Z)
| JNaN
| JStr (s : string)
| JObj (props : list (string * JsVal))
| JError (message : string).

(** The truthiness coercion applied by [if (result)]: [undefined], [null],
    [false], zero, NaN and the empty string are falsy; every other value,
    objects included, is truthy. *)
Definition toBoolean (v : JsVal) : bool :=
  match v with
  | JUndefined | JNull | JNaN => false
  | JBool b => b
  | JNum n => negb (n =? 0)
  | JStr s => negb (String.eqb s "")
  | JObj _ | JError _ => true
  end.

(** [arg !== undefined] and [arg !== null]. *)
Definition strictNeUndefined (arg : JsVal) : JsVal :=
  JBool match arg with JUndefined => false | _ => true end.

Definition strictNeNull (arg : JsVal) : JsVal :=
  JBool match arg with JNull => false | _ => true end.

(** [a && b] yields [a] when [a] is falsy and [b] otherwise. *)
Definition jsAnd (a b : JsVal) : JsVal :=
  if toBoolean a then b else a.

(** ** types.ts *)

(** [Option<T> = None | Some<T>], a union tagged by the field [type]. *)
Inductive Option (T : Type) : Type :=
| OptNone
| OptSome (value : T).
Arguments OptNone {T}.
Arguments OptSome {T} value.

(** The discriminant string stored in the field [type]. *)
Definition type {T} (o : Option T) : string :=
  match o with
  | OptNone => "none"
  | OptSome _ => "some"
  end.

Abbreviation Headers := (gmap string string).

Record Request : Type := mkRequest {
  url : string;
  headers : Headers;
  method : option string;
  body : option string
}.

(** ** Completions and the two computation monads *)

Inductive Completion (A : Type) : Type :=
| Normal (a : A)
| Throw (e : JsVal).
Arguments Normal {A} a.
Arguments Throw {A} e.

(** The state of a promise once nothing more will happen to it. *)
Inductive Promise (A : Type) : Type :=
| Fulfilled (v : A)
| Rejected (reason : JsVal)
| Pending.
Arguments Fulfilled {A} v.
Arguments Rejected {A} reason.
Arguments Pending {A}.

Module Sync.
(** Synchronous code over a world [W]. *)
Definition t (W A : Type) : Type := W -> Completion A * W.

Definition ret {W A} (a : A) : t W A := fun w => (Normal a, w).

Definition throw {W A} (e : JsVal) : t W A := fun w => (Throw e, w).

Definition bind {W A B} (m : t W A) (k : A -> t W B) : t W B :=
  fun w =>
    match m w with
    | (Normal a, w') => k a w'
    | (Throw e, w') => (Throw e, w')
    end.

(** [try { body } catch (e) { handler e }] *)
Definition tryCatch {W A} (body : t W A) (handler : JsVal -> t W A) : t W A :=
  fun w =>
    match body w with
    | (Normal a, w') => (Normal a, w')
    | (Throw e, w') => handler e w'
    end.
End Sync.

Module Async.
(** The body of an [async] function over a world [W]: it returns, throws,
    or stays suspended at an [await]; the promise the function hands to
    its caller is fulfilled, rejected or pending accordingly. *)
Definition t (W A : Type) : Type := W -> Promise A * W.

Definition ret {W A} (a : A) : t W A := fun w => (Fulfilled a, w).

Definition throw {W A} (e : JsVal) : t W A := fun w => (Rejected e, w).

Definition bind {W A B} (m : t W A) (k : A -> t W B) : t W B :=
  fun w =>
    match m w with
    | (Fulfilled a, w') => k a w'
    | (Rejected e, w') => (Rejected e, w')
    | (Pending, w') => (Pending, w')
    end.

(** [await p] *)
Definition await {W A} (p : Promise A) : t W A := fun w => (p, w).

(** A synchronous call made from the body. *)
Definition call {W A} (m : Sync.t W A) : t W A :=
  fun w =>
    match m w with
    | (Normal a, w') => (Fulfilled a, w')
    | (Throw e, w') => (Rejected e, w')
    end.

(** [try { body } catch (e) { handler e }]; a suspended body never
    reaches the handler. *)
Definition tryCatch {W A} (body : t W A) (handler : JsVal -> t W A) : t W A :=
  fun w =>
    match body w with
    | (Fulfilled a, w') => (Fulfilled a, w')
    | (Rejected e, w') => handler e w'
    | (Pending, w') => (Pending, w')
    end.
End Async.

Declare Scope sync_scope.
Declare Scope async_scope.
Notation "x <- m ;; k" := (Sync.bind m (fun x => k))
  (at level 100, m at next level, right associativity, only parsing) : sync_scope.
Notation "x <~ m ;; k" := (Async.bind m (fun x => k))
  (at level 100, m at next level, right associativity, only parsing) : async_scope.
Delimit Scope sync_scope with sync.
Delimit Scope async_scope with async.

(** A JavaScript function of one argument, and one of none. *)
Abbreviation Fn W A B := (A -> Sync.t W B).
Abbreviation Thunk W A := (Sync.t W A).

(** ** The Option helpers *)

Definition some {T} (value : T) : Option T := OptSome value.

Definition none {T} : Option T := OptNone.

Definition OptionalCatch {W T} (fn : Thunk W T) : Sync.t W (Option T) :=
  Sync.tryCatch
    (value <- fn ;; Sync.ret (OptSome value))%sync
    (fun e => Sync.ret OptNone).

Definition optionalResolve {W T} (promise : Promise T) : Async.t W (Option T) :=
  Async.tryCatch
    (v <~ Async.await promise ;; Async.ret (some v))%async
    (fun e => Async.ret OptNone).

Definition OptionalMap {W T U} (option : Option T) (fn : Fn W T U)
  : Sync.t W (Option U) :=
  match option with
  | OptNone => Sync.ret OptNone
  | OptSome value => (r <- fn value ;; Sync.ret (some r))%sync
  end.

Definition toOptional {W} (fn : Fn W JsVal JsVal) : Fn W JsVal (Option JsVal) :=
  fun args =>
    Sync.tryCatch
      (result <- fn args ;;
       if toBoolean result then Sync.ret (some result) else Sync.ret none)%sync
      (fun err => Sync.ret none).

Definition optionalDefined {W} : Fn W JsVal (Option JsVal) :=
  toOptional (fun arg => Sync.ret (jsAnd (strictNeUndefined arg) (strictNeNull arg))).

Definition unwrap {T} (option : Option T) : Completion T :=
  match option with
  | OptNone => Throw (JError "Cannot unwrap None")
  | OptSome value => Normal value
  end.

Definition unwrapOr {T} (opt : Option T) (fallback : T) : T :=
  match opt with
  | OptSome value => value
  | OptNone => fallback
  end.

Definition unwrapExpect {T} (opt : Option T) (message : string) : Completion T :=
  match opt with
  | OptSome value => Normal value
  | OptNone => Throw (JError message)
  end.

(** ** The platform HTTP client *)

(** The options object handed to [fetch].  A property the caller leaves
    out (or sets to [undefined]) is [None]. *)
Record RequestInit : Type := mkRequestInit {
  init_method : option string;
  init_headers : Headers;
  init_body : option string
}.

(** What [fetchWithOption] reads of a response: the flag [ok], the number
    [status] and the method [json], which may throw, or return a promise
    that is fulfilled with the parsed body, rejected, or never settled. *)
Record Response (W : Type) : Type := mkResponse {
  ok : bool;
  status : Z;
  json : Thunk W (Promise JsVal)
}.
Arguments mkResponse {W} ok status json.
Arguments ok {W} r.
Arguments status {W} r.
Arguments json {W} r.

(** The success range of the Fetch standard: a platform response has
    [ok] set exactly when its status is in 200..299. *)
Definition successStatus (s : Z) : bool := (200 <=? s) && (s <=? 299).

Definition platformResponse {W} (r : Response W) : Prop :=
  ok r = successStatus (status r).

(** A client behaviour: called with a URL and options, it acts on the
    world and throws, or returns a promise of a response. *)
Abbreviation Client W := (string -> RequestInit -> Sync.t W (Promise (Response W))).

(** [{ ...target, ...source }]: every property of [source] is written
    into the object, in turn, over what is already there. *)
Definition objectSpread (target source : Headers) : Headers :=
  map_fold (fun key value acc => <[key := value]> acc) target source.

Definition defaultHeaders : Headers := {[ "Content-Type" := "application/json" ]}.

(** The second argument of the call to [fetch]. *)
Definition fetchInit (request : Request) : RequestInit :=
  {| init_method := method request;
     init_headers := objectSpread defaultHeaders (headers request);
     init_body := None |}.

Definition httpError {W} (r : Response W) : JsVal :=
  JError ("HTTP error! Status: " ++ pretty (status r)).

Definition fetchWithOption {W} (fetch : Client W) (request : Request)
  : Async.t W (Option JsVal) :=
  Async.tryCatch
    (promise <~ Async.call (fetch (url request) (fetchInit request)) ;;
     response <~ Async.await promise ;;
     if negb (ok response) then Async.throw (httpError response)
     else
       parsing <~ Async.call (json response) ;;
       data <~ Async.await parsing ;;
       Async.ret (some data))%async
    (fun error => Async.ret none).

(** ** Test doubles *)

(** A function without effects that returns [f x]. *)
Definition pureFn {W A B} (f : A -> B) : Fn W A B := fun x => Sync.ret (f x).

(** A function that throws [e] whatever its argument. *)
Definition throwingFn {W A B} (e : JsVal) : Fn W A B := fun _ => Sync.throw e.

(** [counting fn] behaves as [fn] and counts its invocations in a counter
    added to the world. *)
Definition counting {W A B} (fn : Fn W A B) : Fn (nat * W) A B :=
  fun x '(calls, w) =>
    let '(c, w') := fn x w in (c, (S calls, w')).

(** A computation on [W] run in a world that also carries a log [L],
    which it leaves alone. *)
Definition withLog {L W A} (m : Sync.t W A) : Sync.t (L * W) A :=
  fun '(log, w) => let '(c, w') := m w in (c, (log, w')).

Definition liftResponse {L W} (r : Response W) : Response (L * W) :=
  {| ok := ok r; status := status r; json := withLog (json r) |}.

Definition liftPromise {A B} (f : A -> B) (p : Promise A) : Promise B :=
  match p with
  | Fulfilled v => Fulfilled (f v)
  | Rejected reason => Rejected reason
  | Pending => Pending
  end.

Definition liftCompletion {A B} (f : A -> B) (c : Completion A) : Completion B :=
  match c with
  | Normal a => Normal (f a)
  | Throw e => Throw e
  end.

(** One call received by the client: the URL and the options. *)
Definition Call : Type := string * RequestInit.

(** [recording fetch] behaves as [fetch] and appends the arguments of each
    call it receives to a log added to the world. *)
Definition recording {W} (fetch : Client W) : Client (list Call * W) :=
  fun target init '(log, w) =>
    let '(c, w') := fetch target init w in
    (liftCompletion (liftPromise liftResponse) c, ((log ++ [(target, init)])%list, w')).

(** A client that answers every call with the given status and body, the
    flag [ok] set as the platform sets it. *)
Definition respondWith {W} (code : Z) (parsed : Promise JsVal) : Client W :=
  fun _ _ =>
    Sync.ret (Fulfilled {| ok := successStatus code; status := code;
                           json := Sync.ret parsed |}).

(** A client whose call fails: the promise it returns is rejected. *)
Definition networkError {W} (reason : JsVal) : Client W :=
  fun _ _ => Sync.ret (Rejected reason).

(** The requests of the examples. *)
Definition getRequest : Request :=
  mkRequest "https://api.example.com" ∅ (Some "GET") None.

Definition postRequest (payload : option string) : Request :=
  mkRequest "https://api.example.com" ∅ (Some "POST") payload.

(** ** Callbacks built from the helpers *)

(** The thunk [() => c] for code [c] that completes without touching the
    world, such as [() => unwrap(option)]. *)
Definition thunkOf {W A} (c : Completion A) : Thunk W A := fun w => (c, w).

(** [x => g(f(x))] *)
Definition composeFn {W A B C} (f : Fn W A B) (g : Fn W B C) : Fn W A C :=
  fun x => (r <- f x ;; g r)%sync.

(** An Option of values as the value it is: the object
    [{ type: "none" }] or [{ type: "some", value }]. *)
Definition optionObject (o : Option JsVal) : JsVal :=
  match o with
  | OptNone => JObj [("type", JStr "none")]
  | OptSome value => JObj [("type", JStr "some"); ("value", value)]
  end.

(** [x => fn(x)] for a function [fn] that returns an Option, seen as a
    function that returns a value. *)
Definition returningObject {W} (fn : Fn W JsVal (Option JsVal)) : Fn W JsVal JsVal :=
  fun x => (o <- fn x ;; Sync.ret (optionObject o))%sync.

(** ** Worked examples *)

Example optionalDefined_42 :
  optionalDefined (JNum 42) tt = (Normal (some (JBool true)), tt).
Proof. reflexivity. Qed.

Example optionalDefined_empty_string :
  optionalDefined (JStr "") tt = (Normal (some (JBool true)), tt).
Proof. reflexivity. Qed.

Example toOptional_zero :
  toOptional (pureFn (fun _ => JNum 0)) JUndefined tt = (Normal none, tt).
Proof. reflexivity. Qed.

Example OptionalCatch_42 :
  OptionalCatch (Sync.ret 42) tt = (Normal (some 42), tt).
Proof. reflexivity. Qed.

Example OptionalCatch_throw :
  OptionalCatch (T := Z) (Sync.throw (JError "x")) tt = (Normal none, tt).
Proof. reflexivity. Qed.

Example optionalResolve_5 :
  optionalResolve (Fulfilled 5) tt = (Fulfilled (some 5), tt).
Proof. reflexivity. Qed.

Example optionalResolve_reject :
  optionalResolve (T := Z) (Rejected (JStr "x")) tt = (Fulfilled none, tt).
Proof. reflexivity. Qed.

Example OptionalMap_double :
  OptionalMap (some 42) (pureFn (fun v => v * 2)) tt = (Normal (some 84), tt).
Proof. reflexivity. Qed.

Example fetch_500 :
  fetchWithOption (respondWith 500 (Fulfilled JNull))
    getRequest tt
  = (Fulfilled none, tt).
Proof. reflexivity. Qed.

Example fetch_200 :
  fetchWithOption (respondWith 200 (Fulfilled (JObj [("a", JNum 1)])))
    getRequest tt
  = (Fulfilled (some (JObj [("a", JNum 1)])), tt).
Proof. reflexivity. Qed.

Example fetch_network_error :
  fetchWithOption (networkError (JError "network"))
    getRequest tt
  = (Fulfilled none, tt).
Proof. reflexivity. Qed.

Example httpError_500 :
  httpError (W := unit) (mkResponse false 500 (Sync.ret Pending))
  = JError "HTTP error! Status: 500".
Proof. reflexivity. Qed.

(** ** Reasoning about the two monads *)

Create HintDb js discriminated.

#[global] Hint Unfold
  Sync.ret Sync.throw Sync.bind Sync.tryCatch
  Async.ret Async.throw Async.bind Async.await Async.call Async.tryCatch
  pureFn throwingFn counting withLog : js.

(** Unfold the monad operations and compute. *)
Ltac js_unfold := autounfold with js; cbn beta iota.

(** Use the known outcome of a call and compute on. *)
Ltac js_rewrite H := rewrite H; cbn beta iota delta [negb].

(** A [try] whose handler returns never completes by throwing. *)
Lemma sync_tryCatch_total {W A} (body : Sync.t W A) (a : A) (w : W) :
  exists r w', Sync.tryCatch body (fun _ => Sync.ret a) w = (Normal r, w').
Proof.
  unfold Sync.tryCatch. destruct (body w) as [[r|e] w'].
  - now exists r, w'.
  - now exists a, w'.
Qed.

(** A [try] in an [async] body whose handler returns never rejects. *)
Lemma async_tryCatch_no_reject {W A} (body : Async.t W A) (a : A) (w : W) (e : JsVal) :
  fst (Async.tryCatch body (fun _ => Async.ret a) w) <> Rejected e.
Proof.
  unfold Async.tryCatch. destruct (body w) as [[v|r|] w']; cbn; discriminate.
Qed.

(** ** Object spread *)

Lemma lookup_objectSpread (target source : Headers) (key : string) :
  objectSpread target source !! key =
  match source !! key with
  | Some value => Some value
  | None => target !! key
  end.
Proof.
  unfold objectSpread.
  apply (map_fold_weak_ind
           (fun (acc src : Headers) =>
              acc !! key = match src !! key with
                           | Some value => Some value
                           | None => target !! key
                           end)); clear source.
  - now rewrite lookup_empty.
  - intros i x m acc Hfresh IH.
    destruct (decide (i = key)) as [->|Hne].
    + now rewrite !lookup_insert_eq.
    + now rewrite !lookup_insert_ne.
Qed.

(** Spreading [source] over [target] is the union in which [source]
    takes precedence. *)
Lemma objectSpread_union (target source : Headers) :
  objectSpread target source = source ∪ target.
Proof.
  apply map_eq. intros key.
  rewrite lookup_objectSpread, lookup_union.
  destruct (source !! key), (target !! key); reflexivity.
Qed.

Lemma lookup_defaultHeaders (key : string) :
  defaultHeaders !! key =
  if decide (key = "Content-Type") then Some "application/json" else None.
Proof.
  unfold defaultHeaders. destruct (decide (key = "Content-Type")) as [->|Hne].
  - apply lookup_singleton_eq.
  - apply lookup_singleton_ne. congruence.
Qed.

(** ** The discriminant *)

(** [some v] and [none] carry the tags "some" and "none", so the tests
    [option.type === "none"] and [opt.type === "some"] split the Options
    the same way. *)
Lemma type_discriminates {T} (o : Option T) :
  (type o = "none" <-> o = none) /\
  (type o = "some" <-> exists v, o = some v) /\
  String.eqb (type o) "none" = negb (String.eqb (type o) "some").
Proof.
  destruct o as [|v]; cbn; repeat split; intros H;
    try discriminate H; try reflexivity.
  - destruct H as [v H]. discriminate H.
  - now exists v.
Qed.

(** ** toOptional and optionalDefined *)

(** The predicate inside [optionalDefined] answers with a boolean: [false]
    for [undefined] and [null], [true] for everything else. *)
Lemma defined_predicate (arg : JsVal) :
  jsAnd (strictNeUndefined arg) (strictNeNull arg) =
  JBool match arg with JUndefined | JNull => false | _ => true end.
Proof. destruct arg; reflexivity. Qed.

(** C1, as the specification states it, does not hold: the claim asks
    that [optionalDefined] return [none] on [null], on [undefined] and on
    [0], and [some true] on the string ["x"]; on [0] it returns
    [some true]. *)
Lemma optionalDefined_zero_is_some :
  ~ (optionalDefined JNull tt = (Normal none, tt) /\
     optionalDefined JUndefined tt = (Normal none, tt) /\
     optionalDefined (JNum 0) tt = (Normal none, tt) /\
     optionalDefined (JStr "x") tt = (Normal (some (JBool true)), tt)).
Proof.
  intros (_ & _ & Hzero & _). vm_compute in Hzero. discriminate Hzero.
Qed.

(** C1 (amended): [optionalDefined] returns [none] on [null] and on
    [undefined], and [some true] on the string ["x"] and also on [0]; on
    every input it leaves the world alone and returns [none] exactly for
    [null] and [undefined], and [some true], the boolean, for every other
    value, the falsy ones included. *)
Theorem optionalDefined_spec (W : Type) (w : W) :
  optionalDefined JNull w = (Normal none, w) /\
  optionalDefined JUndefined w = (Normal none, w) /\
  optionalDefined (JStr "x") w = (Normal (some (JBool true)), w) /\
  optionalDefined (JNum 0) w = (Normal (some (JBool true)), w) /\
  forall arg : JsVal,
    optionalDefined arg w =
    (Normal match arg with
            | JUndefined | JNull => none
            | _ => some (JBool true)
            end, w).
Proof.
  repeat split; try reflexivity.
  intros arg. unfold optionalDefined, toOptional.
  js_unfold. rewrite defined_predicate. destruct arg; reflexivity.
Qed.

(** C5: for every function [fn], argument [x] and world, [toOptional fn x]
    returns [some (fn x)] when [fn x] returns a truthy value, and [none]
    both when [fn x] returns a falsy value and when it throws; in the two
    last cases the result is the same value. *)
Theorem toOptional_spec (W : Type) (fn : Fn W JsVal JsVal) (x : JsVal) (w : W) :
  (forall r w', fn x w = (Normal r, w') -> toBoolean r = true ->
     toOptional fn x w = (Normal (some r), w')) /\
  (forall r w', fn x w = (Normal r, w') -> toBoolean r = false ->
     toOptional fn x w = (Normal none, w')) /\
  (forall e w', fn x w = (Throw e, w') ->
     toOptional fn x w = (Normal none, w')) /\
  (forall (fn' : Fn W JsVal JsVal) r e w',
     fn x w = (Normal r, w') -> toBoolean r = false ->
     fn' x w = (Throw e, w') ->
     toOptional fn x w = toOptional fn' x w).
Proof.
  unfold toOptional. js_unfold. repeat split.
  - intros r w' Hfn Ht. now rewrite Hfn, Ht.
  - intros r w' Hfn Hf. now rewrite Hfn, Hf.
  - intros e w' Hfn. now rewrite Hfn.
  - intros fn' r e w' Hfn Hf Hfn'. now rewrite Hfn, Hfn', Hf.
Qed.

Lemma toOptional_spec_witness :
  toOptional (pureFn (fun a => a)) (JStr "x") tt = (Normal (some (JStr "x")), tt) /\
  toOptional (pureFn (fun a => a)) (JNum 0) tt = (Normal none, tt) /\
  toOptional (throwingFn (JError "x")) (JNum 0) tt = (Normal none, tt) /\
  toOptional (pureFn (fun a => a)) (JNum 0) tt
  = toOptional (throwingFn (JError "x")) (JNum 0) tt.
Proof.
  destruct (toOptional_spec unit (pureFn (fun a => a)) (JStr "x") tt)
    as (Htruthy & _).
  destruct (toOptional_spec unit (pureFn (fun a => a)) (JNum 0) tt)
    as (_ & Hfalsy & _ & Hsame).
  destruct (toOptional_spec unit (throwingFn (JError "x")) (JNum 0) tt)
    as (_ & _ & Hthrow & _).
  split; [|split; [|split]].
  - apply (Htruthy (JStr "x")); reflexivity.
  - apply (Hfalsy (JNum 0)); reflexivity.
  - apply (Hthrow (JError "x")); reflexivity.
  - apply (Hsame _ (JNum 0) (JError "x") tt); reflexivity.
Defined.

(** ** OptionalMap *)

(** The counting double does count: mapping over a [some] invokes the
    function once. *)
Lemma OptionalMap_some_counts {W T U} (fn : Fn W T U) (v : T) (calls : nat) (w : W) :
  fst (snd (OptionalMap (some v) (counting fn) (calls, w))) = S calls.
Proof.
  unfold OptionalMap, some. js_unfold.
  destruct (fn v w) as [[r|e] w']; reflexivity.
Qed.

(** C6: [OptionalMap none fn] returns [none] and leaves the world as it
    was, whatever [fn] is, and a double that counts its invocations is not
    invoked; [OptionalMap (some v) fn] returns [some (fn v)] for every
    value [v] and every pure [fn]. *)
Theorem OptionalMap_spec (W T U : Type) :
  (forall (fn : Fn W T U) (w : W),
     OptionalMap none fn w = (Normal none, w)) /\
  (forall (fn : Fn W T U) (calls : nat) (w : W),
     OptionalMap none (counting fn) (calls, w) = (Normal none, (calls, w))) /\
  (forall (f : T -> U) (v : T) (w : W),
     OptionalMap (some v) (pureFn f) w = (Normal (some (f v)), w)).
Proof. repeat split. Qed.

(** C7: when the mapping function throws on the value of a [some], the
    exception leaves [OptionalMap] as it came, with the world the function
    left, whereas [OptionalCatch] around the same call returns [none]. *)
Theorem OptionalMap_propagates (W T U : Type) (fn : Fn W T U) (v : T)
    (e : JsVal) (w w' : W) :
  fn v w = (Throw e, w') ->
  OptionalMap (some v) fn w = (Throw e, w') /\
  OptionalCatch (fn v) w = (Normal none, w').
Proof.
  intros Hfn. unfold OptionalMap, OptionalCatch, some. js_unfold.
  now rewrite Hfn.
Qed.

Lemma OptionalMap_propagates_witness :
  throwingFn (B := Z) (JError "boom") 42 tt = (Throw (JError "boom"), tt) /\
  OptionalMap (some 42) (throwingFn (B := Z) (JError "boom")) tt
  = (Throw (JError "boom"), tt) /\
  OptionalCatch (throwingFn (B := Z) (JError "boom") 42) tt = (Normal none, tt).
Proof.
  split; [reflexivity|].
  apply (OptionalMap_propagates unit Z Z (throwingFn (JError "boom")) 42
           (JError "boom") tt tt).
  reflexivity.
Defined.

(** ** Unwrapping *)

Lemma unwrap_throws_iff {T} (o : Option T) :
  (exists e, unwrap o = Throw e) <-> o = none.
Proof.
  destruct o as [|v]; cbn; split; intros H; try reflexivity.
  - now eexists.
  - destruct H as [e H]. discriminate H.
  - discriminate H.
Qed.

Lemma unwrapExpect_throws_iff {T} (o : Option T) (message : string) :
  (exists e, unwrapExpect o message = Throw e) <-> o = none.
Proof.
  destruct o as [|v]; cbn; split; intros H; try reflexivity.
  - now eexists.
  - destruct H as [e H]. discriminate H.
  - discriminate H.
Qed.

(** C8: [unwrap] returns the value of every [some] and throws an error
    whose message is exactly "Cannot unwrap None" on [none];
    [unwrapExpect] returns the value of every [some] and throws an error
    whose message is exactly the caller's on [none]; each throws if and
    only if its input is [none]. *)
Theorem unwrap_unwrapExpect_spec (T : Type) :
  (forall v : T, unwrap (some v) = Normal v) /\
  unwrap (@none T) = Throw (JError "Cannot unwrap None") /\
  (forall (v : T) (message : string), unwrapExpect (some v) message = Normal v) /\
  (forall message : string, unwrapExpect (@none T) message = Throw (JError message)) /\
  (forall o : Option T, (exists e, unwrap o = Throw e) <-> o = none) /\
  (forall (o : Option T) (message : string),
     (exists e, unwrapExpect o message = Throw e) <-> o = none).
Proof.
  split; [reflexivity|]. split; [reflexivity|].
  split; [reflexivity|]. split; [reflexivity|].
  split.
  - apply unwrap_throws_iff.
  - apply unwrapExpect_throws_iff.
Qed.

Lemma unwrap_unwrapExpect_spec_witness :
  unwrap (some 7) = Normal 7 /\
  unwrapExpect (@none Z) "msg" = Throw (JError "msg") /\
  (exists e, unwrap (@none Z) = Throw e) /\
  (exists e, unwrapExpect (@none Z) "msg" = Throw e).
Proof.
  destruct (unwrap_unwrapExpect_spec Z) as (Hsome & _ & _ & Hmsg & Hiff & Hiff').
  split; [apply Hsome|]. split; [apply Hmsg|]. split.
  - apply (Hiff none). reflexivity.
  - apply (Hiff' none "msg"). reflexivity.
Defined.

(** C9: [unwrapOr (some v) fallback] is [v] and [unwrapOr none fallback]
    is [fallback], for every [v] and [fallback]; [unwrapOr] has a result on
    every Option: the value [unwrap] returns where [unwrap] returns, and
    the fallback where [unwrap] throws. *)
Theorem unwrapOr_spec (T : Type) :
  (forall v fallback : T, unwrapOr (some v) fallback = v) /\
  (forall fallback : T, unwrapOr none fallback = fallback) /\
  (forall (o : Option T) (fallback : T),
     unwrapOr o fallback =
     match unwrap o with
     | Normal v => v
     | Throw _ => fallback
     end).
Proof.
  split; [reflexivity|]. split; [reflexivity|].
  intros [|v] fallback; reflexivity.
Qed.

(** ** OptionalCatch and optionalResolve *)

(** A promise that never settles leaves [optionalResolve] pending. *)
Lemma optionalResolve_pending {W T} (w : W) :
  optionalResolve (@Pending T) w = (Pending, w).
Proof. reflexivity. Qed.

(** Neither wrapper lets an error out. *)
Lemma OptionalCatch_total {W T} (fn : Thunk W T) (w : W) :
  exists o w', OptionalCatch fn w = (Normal o, w').
Proof. apply sync_tryCatch_total. Qed.

Lemma optionalResolve_no_reject {W T} (promise : Promise T) (w : W) (e : JsVal) :
  fst (optionalResolve promise w) <> Rejected e.
Proof. apply async_tryCatch_no_reject. Qed.

(** C10: [OptionalCatch fn] returns [some] of what [fn] returns when [fn]
    returns, and [none] when [fn] throws, whatever the error;
    [optionalResolve] is fulfilled with [some] of the value of a fulfilled
    promise and with [none] for a rejected one, whatever the reason. *)
Theorem OptionalCatch_optionalResolve_spec (W T : Type) :
  (forall (fn : Thunk W T) (v : T) (w w' : W),
     fn w = (Normal v, w') -> OptionalCatch fn w = (Normal (some v), w')) /\
  (forall (fn : Thunk W T) (e : JsVal) (w w' : W),
     fn w = (Throw e, w') -> OptionalCatch fn w = (Normal none, w')) /\
  (forall (v : T) (w : W),
     optionalResolve (Fulfilled v) w = (Fulfilled (some v), w)) /\
  (forall (reason : JsVal) (w : W),
     optionalResolve (@Rejected T reason) w = (Fulfilled none, w)).
Proof.
  split; [|split; [|split]]; try reflexivity.
  - intros fn v w w' Hfn. unfold OptionalCatch. js_unfold. now rewrite Hfn.
  - intros fn e w w' Hfn. unfold OptionalCatch. js_unfold. now rewrite Hfn.
Qed.

Lemma OptionalCatch_optionalResolve_spec_witness :
  OptionalCatch (Sync.ret 42) tt = (Normal (some 42), tt) /\
  OptionalCatch (T := Z) (Sync.throw (JError "x")) tt = (Normal none, tt) /\
  optionalResolve (Fulfilled 5) tt = (Fulfilled (some 5), tt) /\
  optionalResolve (T := Z) (Rejected (JStr "x")) tt = (Fulfilled none, tt).
Proof.
  destruct (OptionalCatch_optionalResolve_spec unit Z)
    as (Hret & Hthrow & Hful & Hrej).
  split; [|split; [|split]].
  - apply (Hret (Sync.ret 42) 42 tt tt). reflexivity.
  - apply (Hthrow (Sync.throw (JError "x")) (JError "x") tt tt). reflexivity.
  - apply Hful.
  - apply Hrej.
Defined.

(** ** fetchWithOption *)

#[global] Hint Unfold fetchWithOption httpError : js.

(** A platform response whose status is outside 200..299 has [ok] unset. *)
Lemma platformResponse_failure {W} (r : Response W) :
  platformResponse r -> ~ (200 <= status r <= 299) -> ok r = false.
Proof.
  unfold platformResponse, successStatus. intros -> Hout.
  apply andb_false_iff.
  destruct (Z.leb_spec 200 (status r)); [|now left].
  destruct (Z.leb_spec (status r) 299); [|now right].
  exfalso. apply Hout. lia.
Qed.

(** The client is called once, first, with the request's URL and the
    options [fetchInit] builds; what follows does not touch the log. *)
Lemma fetchWithOption_log {W} (fetch : Client W) (request : Request)
    (log : list Call) (w : W) :
  fst (snd (fetchWithOption (recording fetch) request (log, w)))
  = (log ++ [(url request, fetchInit request)])%list.
Proof.
  unfold recording. js_unfold.
  destruct (fetch (url request) (fetchInit request) w) as [[[resp|reason|]|e] w1];
    cbn; try reflexivity.
  destruct (ok resp); cbn; [|reflexivity].
  destruct (json resp w1) as [[[data|reason|]|e] w2]; reflexivity.
Qed.

(** C2: whatever the client does, [fetchWithOption] is fulfilled with
    the None variant when the response has [ok] unset, which for a
    platform response is when its status is outside 200..299, and two such
    responses with different statuses give the same result; it is
    fulfilled with the None variant when the client throws, when its
    promise is rejected, and when [json] throws or its promise is
    rejected; it is fulfilled with the Some variant carrying the parsed
    body when the response is a success and parses; and the promise it
    returns is never rejected. *)
Theorem fetchWithOption_spec (W : Type) (fetch : Client W) (request : Request) (w : W) :
  (forall resp w1,
     fetch (url request) (fetchInit request) w = (Normal (Fulfilled resp), w1) ->
     ok resp = false ->
     fetchWithOption fetch request w = (Fulfilled OptNone, w1)) /\
  (forall resp w1,
     fetch (url request) (fetchInit request) w = (Normal (Fulfilled resp), w1) ->
     platformResponse resp -> ~ (200 <= status resp <= 299) ->
     fetchWithOption fetch request w = (Fulfilled OptNone, w1)) /\
  (forall (fetch' : Client W) resp resp' w1,
     fetch (url request) (fetchInit request) w = (Normal (Fulfilled resp), w1) ->
     fetch' (url request) (fetchInit request) w = (Normal (Fulfilled resp'), w1) ->
     ok resp = false -> ok resp' = false ->
     fetchWithOption fetch request w = fetchWithOption fetch' request w) /\
  (forall e w1,
     fetch (url request) (fetchInit request) w = (Throw e, w1) ->
     fetchWithOption fetch request w = (Fulfilled OptNone, w1)) /\
  (forall reason w1,
     fetch (url request) (fetchInit request) w = (Normal (Rejected reason), w1) ->
     fetchWithOption fetch request w = (Fulfilled OptNone, w1)) /\
  (forall resp w1 e w2,
     fetch (url request) (fetchInit request) w = (Normal (Fulfilled resp), w1) ->
     ok resp = true ->
     json resp w1 = (Throw e, w2) ->
     fetchWithOption fetch request w = (Fulfilled OptNone, w2)) /\
  (forall resp w1 reason w2,
     fetch (url request) (fetchInit request) w = (Normal (Fulfilled resp), w1) ->
     ok resp = true ->
     json resp w1 = (Normal (Rejected reason), w2) ->
     fetchWithOption fetch request w = (Fulfilled OptNone, w2)) /\
  (forall resp w1 data w2,
     fetch (url request) (fetchInit request) w = (Normal (Fulfilled resp), w1) ->
     ok resp = true ->
     json resp w1 = (Normal (Fulfilled data), w2) ->
     fetchWithOption fetch request w = (Fulfilled (OptSome data), w2)) /\
  (forall e, fst (fetchWithOption fetch request w) <> Rejected e).
Proof.
  assert (Hfail : forall (client : Client W) resp w1,
             client (url request) (fetchInit request) w = (Normal (Fulfilled resp), w1) ->
             ok resp = false ->
             fetchWithOption client request w = (Fulfilled OptNone, w1)).
  { intros client resp w1 Hcall Hok. js_unfold.
    js_rewrite Hcall. now js_rewrite Hok. }
  repeat match goal with |- _ /\ _ => split end.
  - apply Hfail.
  - intros resp w1 Hcall Hplat Hout.
    apply (Hfail fetch resp w1 Hcall). now apply platformResponse_failure.
  - intros fetch' resp resp' w1 Hcall Hcall' Hok Hok'.
    rewrite (Hfail fetch resp w1 Hcall Hok).
    now rewrite (Hfail fetch' resp' w1 Hcall' Hok').
  - intros e w1 Hcall. js_unfold. now rewrite Hcall.
  - intros reason w1 Hcall. js_unfold. now rewrite Hcall.
  - intros resp w1 e w2 Hcall Hok Hjson. js_unfold.
    js_rewrite Hcall. js_rewrite Hok. now js_rewrite Hjson.
  - intros resp w1 reason w2 Hcall Hok Hjson. js_unfold.
    js_rewrite Hcall. js_rewrite Hok. now js_rewrite Hjson.
  - intros resp w1 data w2 Hcall Hok Hjson. js_unfold.
    js_rewrite Hcall. js_rewrite Hok. now js_rewrite Hjson.
  - intros e. unfold fetchWithOption. apply async_tryCatch_no_reject.
Qed.

Lemma fetchWithOption_spec_witness :
  fetchWithOption (respondWith 500 (Fulfilled JNull)) getRequest tt
  = (Fulfilled OptNone, tt) /\
  fetchWithOption (respondWith 500 (Fulfilled JNull)) getRequest tt
  = fetchWithOption (respondWith 404 (Fulfilled JNull)) getRequest tt /\
  fetchWithOption (networkError (JError "network")) getRequest tt
  = (Fulfilled OptNone, tt) /\
  fetchWithOption (respondWith 200 (Rejected (JError "Unexpected token"))) getRequest tt
  = (Fulfilled OptNone, tt) /\
  fetchWithOption (respondWith 200 (Fulfilled (JObj [("a", JNum 1)]))) getRequest tt
  = (Fulfilled (OptSome (JObj [("a", JNum 1)])), tt).
Proof.
  destruct (fetchWithOption_spec unit (respondWith 500 (Fulfilled JNull)) getRequest tt)
    as (_ & Hstatus & Hsame & _).
  destruct (fetchWithOption_spec unit (networkError (JError "network")) getRequest tt)
    as (_ & _ & _ & _ & Hreject & _).
  destruct (fetchWithOption_spec unit
              (respondWith 200 (Rejected (JError "Unexpected token"))) getRequest tt)
    as (_ & _ & _ & _ & _ & _ & Hparse & _).
  destruct (fetchWithOption_spec unit
              (respondWith 200 (Fulfilled (JObj [("a", JNum 1)]))) getRequest tt)
    as (_ & _ & _ & _ & _ & _ & _ & Hsuccess & _).
  split; [|split; [|split; [|split]]].
  - apply (Hstatus (mkResponse false 500 (Sync.ret (Fulfilled JNull))) tt).
    + reflexivity.
    + reflexivity.
    + cbn. lia.
  - apply (Hsame (respondWith 404 (Fulfilled JNull))
             (mkResponse false 500 (Sync.ret (Fulfilled JNull)))
             (mkResponse false 404 (Sync.ret (Fulfilled JNull))) tt);
      reflexivity.
  - apply (Hreject (JError "network") tt). reflexivity.
  - apply (Hparse (mkResponse true 200 (Sync.ret (Rejected (JError "Unexpected token"))))
             tt (JError "Unexpected token") tt); reflexivity.
  - apply (Hsuccess (mkResponse true 200 (Sync.ret (Fulfilled (JObj [("a", JNum 1)]))))
             tt (JObj [("a", JNum 1)]) tt); reflexivity.
Defined.

(** C3: for every request and every client, the headers the client
    receives are the default header [Content-Type: application/json]
    merged with the caller's headers: a key of the caller's headers has
    the caller's value, also when the key is [Content-Type], and the only
    other key is the default one. *)
Theorem fetchWithOption_headers (W : Type) (fetch : Client W) (request : Request)
    (log : list Call) (w : W) :
  exists init : RequestInit,
    fst (snd (fetchWithOption (recording fetch) request (log, w)))
    = (log ++ [(url request, init)])%list /\
    init_headers init = headers request ∪ defaultHeaders /\
    forall key : string,
      init_headers init !! key =
      match headers request !! key with
      | Some value => Some value
      | None =>
          if decide (key = "Content-Type") then Some "application/json" else None
      end.
Proof.
  exists (fetchInit request). split; [apply fetchWithOption_log|].
  split; cbn.
  - apply objectSpread_union.
  - intros key. rewrite lookup_objectSpread, lookup_defaultHeaders. reflexivity.
Qed.

(** The caller's [Content-Type] replaces the default one. *)
Example fetchInit_collision :
  init_headers
    (fetchInit (mkRequest "u" {[ "Content-Type" := "text/plain"; "X-Id" := "7" ]}
                  None None))
  = {[ "Content-Type" := "text/plain"; "X-Id" := "7" ]}.
Proof. vm_compute. reflexivity. Qed.

(** C4: the request's body does not reach the client: the one call the
    client receives carries the URL and options made of the request's
    method, the merged headers and no body, and two requests that differ
    only in their body lead to the same call and the same result. *)
Theorem fetchWithOption_body_not_forwarded (W : Type) (fetch : Client W)
    (r1 r2 : Request) (log : list Call) (w : W) :
  url r1 = url r2 -> headers r1 = headers r2 -> method r1 = method r2 ->
  fst (snd (fetchWithOption (recording fetch) r1 (log, w)))
  = (log ++ [(url r1, {| init_method := method r1;
                         init_headers := headers r1 ∪ defaultHeaders;
                         init_body := None |})])%list /\
  fetchWithOption (recording fetch) r1 (log, w)
  = fetchWithOption (recording fetch) r2 (log, w) /\
  fetchWithOption fetch r1 w = fetchWithOption fetch r2 w.
Proof.
  intros Hurl Hheaders Hmethod.
  assert (Hinit : fetchInit r1 = fetchInit r2).
  { unfold fetchInit. now rewrite Hheaders, Hmethod. }
  split; [|split].
  - rewrite fetchWithOption_log. unfold fetchInit.
    now rewrite objectSpread_union.
  - unfold fetchWithOption. now rewrite Hurl, Hinit.
  - unfold fetchWithOption. now rewrite Hurl, Hinit.
Qed.

Lemma fetchWithOption_body_not_forwarded_witness :
  fst (snd (fetchWithOption (recording (respondWith 200 (Fulfilled JNull)))
              (postRequest (Some "{}")) ([], tt)))
  = [("https://api.example.com",
      {| init_method := Some "POST";
         init_headers := ∅ ∪ defaultHeaders;
         init_body := None |})] /\
  fetchWithOption (recording (respondWith 200 (Fulfilled JNull)))
    (postRequest (Some "{}")) ([], tt)
  = fetchWithOption (recording (respondWith 200 (Fulfilled JNull)))
      (postRequest None) ([], tt) /\
  fetchWithOption (respondWith 200 (Fulfilled JNull)) (postRequest (Some "{}")) tt
  = fetchWithOption (respondWith 200 (Fulfilled JNull)) (postRequest None) tt.
Proof.
  apply (fetchWithOption_body_not_forwarded unit
           (respondWith 200 (Fulfilled JNull))
           (postRequest (Some "{}")) (postRequest None) [] tt); reflexivity.
Defined.

(** ** Further properties of the helpers *)

#[global] Hint Unfold OptionalMap OptionalCatch toOptional optionalResolve
  composeFn returningObject thunkOf some none : js.

(** Mapping is functorial, effects and exceptions included: mapping the
    identity returns the Option as it is, and mapping [f] and then [g] is
    mapping [x => g(f(x))]: the same result, the same exception, the same
    world. *)
Theorem OptionalMap_functor (W T U V : Type) (o : Option T)
    (f : Fn W T U) (g : Fn W U V) (w : W) :
  OptionalMap o (pureFn (fun v => v)) w = (Normal o, w) /\
  (o' <- OptionalMap o f ;; OptionalMap o' g)%sync w
  = OptionalMap o (composeFn f g) w.
Proof.
  split.
  - destruct o; reflexivity.
  - destruct o as [|v]; js_unfold; [reflexivity|].
    destruct (f v w) as [[r|e] w1]; [|reflexivity].
    cbn beta iota. destruct (g r w1) as [[r'|e] w2]; reflexivity.
Qed.

(** Mapping never changes the variant: whenever [OptionalMap] returns, its
    result carries the tag of its input, whatever the function returned. *)
Theorem OptionalMap_keeps_variant (W T U : Type) (o : Option T) (fn : Fn W T U)
    (o' : Option U) (w w' : W) :
  OptionalMap o fn w = (Normal o', w') -> type o' = type o.
Proof.
  destruct o as [|v]; js_unfold.
  - intros [= <- _]. reflexivity.
  - destruct (fn v w) as [[r|e] w1]; intros H; [|discriminate H].
    injection H as <- _. reflexivity.
Qed.

Lemma OptionalMap_keeps_variant_witness :
  OptionalMap (some (JNum 1)) (pureFn (fun _ => JUndefined)) tt
  = (Normal (some JUndefined), tt) /\
  type (some JUndefined) = type (some (JNum 1)).
Proof.
  split; [reflexivity|].
  apply (OptionalMap_keeps_variant unit JsVal JsVal (some (JNum 1))
           (pureFn (fun _ => JUndefined)) (some JUndefined) tt tt).
  reflexivity.
Defined.

(** Unwrapping with a fallback commutes with mapping a pure function:
    mapping [f] and unwrapping with fallback [f fallback] gives [f] of the
    unwrapping with [fallback]. *)
Theorem unwrapOr_OptionalMap (W T U : Type) (f : T -> U) (o : Option T)
    (fallback : T) (w : W) :
  liftCompletion (fun o' => unwrapOr o' (f fallback))
    (fst (OptionalMap o (pureFn f) w))
  = Normal (f (unwrapOr o fallback)).
Proof. destruct o; reflexivity. Qed.

(** The Option a wrapped function returns is [some r] exactly when the
    function returned [r] and [r] is truthy: the payload of a [some] made by
    [toOptional] is never falsy. *)
Theorem toOptional_some_iff (W : Type) (fn : Fn W JsVal JsVal) (x r : JsVal)
    (w w' : W) :
  toOptional fn x w = (Normal (some r), w') <->
  fn x w = (Normal r, w') /\ toBoolean r = true.
Proof.
  js_unfold. destruct (fn x w) as [[v|e] w1]; cbn beta iota.
  - destruct (toBoolean v) eqn:Hv; split.
    + intros [= -> ->]. now split.
    + intros [[= -> ->] _]. reflexivity.
    + intros H. discriminate H.
    + intros [[= -> ->] Hr]. congruence.
  - split; [intros H; discriminate H | intros [H _]; discriminate H].
Qed.

(** [OptionalCatch] tells a throw from a return: it returns [none] exactly
    when the function threw and [some v] exactly when the function
    returned [v], falsy values included. *)
Theorem OptionalCatch_iff (W T : Type) (fn : Thunk W T) (w w' : W) :
  (OptionalCatch fn w = (Normal none, w') <-> exists e, fn w = (Throw e, w')) /\
  (forall v, OptionalCatch fn w = (Normal (some v), w') <-> fn w = (Normal v, w')).
Proof.
  js_unfold. destruct (fn w) as [[v|e] w1]; cbn beta iota; split.
  - split; [intros H; discriminate H | intros [e H]; discriminate H].
  - intros v'. split; intros [= -> ->]; reflexivity.
  - split; [intros [= ->]; now exists e | intros [e' [= _ ->]]; reflexivity].
  - intros v. split; intros H; discriminate H.
Qed.

(** The two wrappers never throw, and swallowing an exception undoes
    nothing: the world they leave is the world the function left. *)
Theorem wrappers_never_throw (W T : Type) (fn : Fn W JsVal JsVal) (x : JsVal)
    (th : Thunk W T) (w : W) :
  (forall e, fst (toOptional fn x w) <> Throw e) /\
  (forall e, fst (OptionalCatch th w) <> Throw e) /\
  snd (toOptional fn x w) = snd (fn x w) /\
  snd (OptionalCatch th w) = snd (th w).
Proof.
  js_unfold. repeat match goal with |- _ /\ _ => split end.
  - intros e. destruct (fn x w) as [[v|e'] w1]; cbn; [|discriminate].
    destruct (toBoolean v); cbn; discriminate.
  - intros e. destruct (th w) as [[v|e'] w1]; cbn; discriminate.
  - destruct (fn x w) as [[v|e'] w1]; cbn; [|reflexivity].
    destruct (toBoolean v); reflexivity.
  - destruct (th w) as [[v|e'] w1]; reflexivity.
Qed.

(** [toOptional fn x] and [OptionalCatch (() => fn x)] agree except when
    the function returns a falsy value. *)
Theorem toOptional_vs_OptionalCatch (W : Type) (fn : Fn W JsVal JsVal)
    (x : JsVal) (w : W) :
  toOptional fn x w = OptionalCatch (fn x) w <->
  (forall r w', fn x w = (Normal r, w') -> toBoolean r = true).
Proof.
  js_unfold. destruct (fn x w) as [[v|e] w1]; cbn beta iota.
  - destruct (toBoolean v) eqn:Hv; split.
    + intros _ r w' [= <- _]. exact Hv.
    + reflexivity.
    + intros H. discriminate H.
    + intros H. specialize (H v w1 eq_refl). congruence.
  - split; [intros _ r w' H; discriminate H | reflexivity].
Qed.

(** Catching an unwrap gives the Option back: [OptionalCatch] after
    [unwrap], or after [unwrapExpect] with any message, is the identity on
    Options. *)
Theorem OptionalCatch_unwrap (W T : Type) (o : Option T) (message : string) (w : W) :
  OptionalCatch (thunkOf (unwrap o)) w = (Normal o, w) /\
  OptionalCatch (thunkOf (unwrapExpect o message)) w = (Normal o, w).
Proof. destruct o; split; reflexivity. Qed.


(** [optionalResolve] leaves the world alone, is never rejected, and is
    pending exactly when the promise it awaits never settles. *)
Theorem optionalResolve_settles (W T : Type) (promise : Promise T) (w : W) :
  snd (optionalResolve promise w) = w /\
  (fst (optionalResolve promise w) = Pending <-> promise = Pending) /\
  (forall e, fst (optionalResolve promise w) <> Rejected e).
Proof.
  destruct promise as [v|reason|]; cbn; repeat split;
    try discriminate; try reflexivity; intros H; discriminate H.
Qed.

(** ** Further properties of fetchWithOption *)

(** The outcome of [fetchWithOption] in terms of what the client and the
    response's [json] do. *)
Lemma fetchWithOption_cases {W} (fetch : Client W) (request : Request) (w : W) :
  fetchWithOption fetch request w =
  match fetch (url request) (fetchInit request) w with
  | (Throw _, w1) | (Normal (Rejected _), w1) => (Fulfilled none, w1)
  | (Normal Pending, w1) => (Pending, w1)
  | (Normal (Fulfilled resp), w1) =>
      if ok resp then
        match json resp w1 with
        | (Throw _, w2) | (Normal (Rejected _), w2) => (Fulfilled none, w2)
        | (Normal Pending, w2) => (Pending, w2)
        | (Normal (Fulfilled data), w2) => (Fulfilled (some data), w2)
        end
      else (Fulfilled none, w1)
  end.
Proof.
  js_unfold.
  destruct (fetch (url request) (fetchInit request) w) as [[[resp|reason|]|e] w1];
    cbn beta iota; try reflexivity.
  destruct (ok resp); cbn; [|reflexivity].
  destruct (json resp w1) as [[[data|reason|]|e] w2]; reflexivity.
Qed.

(** A [some] means success: [fetchWithOption] is fulfilled with
    [some data] exactly when the client's promise was fulfilled with a
    response that has [ok] set and whose [json] was fulfilled with
    [data]. *)
Theorem fetchWithOption_some_iff (W : Type) (fetch : Client W) (request : Request)
    (data : JsVal) (w w2 : W) :
  fetchWithOption fetch request w = (Fulfilled (some data), w2) <->
  exists resp w1,
    fetch (url request) (fetchInit request) w = (Normal (Fulfilled resp), w1) /\
    ok resp = true /\
    json resp w1 = (Normal (Fulfilled data), w2).
Proof.
  rewrite fetchWithOption_cases.
  destruct (fetch (url request) (fetchInit request) w) as [[[resp|reason|]|e] w1];
    try (split; [intros H; discriminate H
                | intros (r & w1' & H & _); discriminate H]).
  destruct (ok resp) eqn:Hok.
  - destruct (json resp w1) as [[[d|reason|]|e] w2'] eqn:Hjson;
      try (split; [intros H; discriminate H
                  | intros (r & w1' & [= <- <-] & _ & H); rewrite Hjson in H;
                    discriminate H]).
    split.
    + intros [= -> ->]. exists resp, w1. now repeat split.
    + intros (r & w1' & [= <- <-] & _ & H). rewrite Hjson in H.
      now injection H as -> ->.
  - split; [intros H; discriminate H|].
    intros (r & w1' & [= <- <-] & Hok' & _). congruence.
Qed.

(** There is no timeout: the promise [fetchWithOption] returns stays
    pending exactly when the client's promise never settles, or the
    response has [ok] set and the promise of its [json] never settles. *)
Theorem fetchWithOption_pending_iff (W : Type) (fetch : Client W)
    (request : Request) (w : W) :
  fst (fetchWithOption fetch request w) = Pending <->
  (exists w1, fetch (url request) (fetchInit request) w = (Normal Pending, w1)) \/
  (exists resp w1 w2,
     fetch (url request) (fetchInit request) w = (Normal (Fulfilled resp), w1) /\
     ok resp = true /\
     json resp w1 = (Normal Pending, w2)).
Proof.
  rewrite fetchWithOption_cases.
  destruct (fetch (url request) (fetchInit request) w) as [[[resp|reason|]|e] w1];
    cbn [fst].
  - destruct (ok resp) eqn:Hok.
    + destruct (json resp w1) as [[[d|reason|]|e] w2] eqn:Hjson; cbn [fst];
        try (split;
             [ intros H; discriminate H
             | intros [(w1' & H) | (r & w1' & w2' & [= <- <-] & _ & H)];
               [ discriminate H | rewrite Hjson in H; discriminate H ] ]).
      split; [|reflexivity].
      intros _. right. exists resp, w1, w2. now repeat split.
    + split; [intros H; discriminate H|].
      intros [(w1' & H) | (r & w1' & w2' & [= <- <-] & Hok' & _)];
        [discriminate H | congruence].
  - split; [intros H; discriminate H|].
    intros [(w1' & H) | (r & w1' & w2' & H & _)]; discriminate H.
  - split; [|reflexivity]. intros _. left. now exists w1.
  - split; [intros H; discriminate H|].
    intros [(w1' & H) | (r & w1' & w2' & H & _)]; discriminate H.
Qed.

(** What the caller's headers become: a caller that sets [Content-Type]
    has its headers passed on as they are; one that does not has the
    default added; in both cases every header of the caller is passed on
    with its value, and the client always receives a [Content-Type]. *)
Theorem fetchInit_headers (request : Request) :
  init_headers (fetchInit request) =
  match headers request !! "Content-Type" with
  | Some _ => headers request
  | None => <["Content-Type" := "application/json"]> (headers request)
  end /\
  headers request ⊆ init_headers (fetchInit request) /\
  is_Some (init_headers (fetchInit request) !! "Content-Type").
Proof.
  cbn [fetchInit init_headers]. rewrite objectSpread_union.
  split; [|split].
  - apply map_eq. intros key.
    rewrite lookup_union, lookup_defaultHeaders.
    destruct (headers request !! "Content-Type") as [ct|] eqn:Hct.
    + destruct (decide (key = "Content-Type")) as [->|Hne].
      * rewrite Hct. reflexivity.
      * destruct (headers request !! key); reflexivity.
    + destruct (decide (key = "Content-Type")) as [->|Hne].
      * rewrite Hct, lookup_insert_eq. reflexivity.
      * rewrite lookup_insert_ne by congruence.
        destruct (headers request !! key); reflexivity.
  - apply map_union_subseteq_l.
  - rewrite lookup_union, lookup_defaultHeaders.
    destruct (headers request !! "Content-Type"); cbn; eauto.
Qed.

(** A [none] means one of five failures, which the caller cannot tell
    apart: the client threw, its promise was rejected, the response has
    [ok] unset, [json] threw, or the promise of [json] was rejected. *)
Theorem fetchWithOption_none_iff (W : Type) (fetch : Client W) (request : Request)
    (w w' : W) :
  fetchWithOption fetch request w = (Fulfilled none, w') <->
  (exists e, fetch (url request) (fetchInit request) w = (Throw e, w')) \/
  (exists reason,
     fetch (url request) (fetchInit request) w = (Normal (Rejected reason), w')) \/
  (exists resp,
     fetch (url request) (fetchInit request) w = (Normal (Fulfilled resp), w') /\
     ok resp = false) \/
  (exists resp w1,
     fetch (url request) (fetchInit request) w = (Normal (Fulfilled resp), w1) /\
     ok resp = true /\
     ((exists e, json resp w1 = (Throw e, w')) \/
      (exists reason, json resp w1 = (Normal (Rejected reason), w')))).
Proof.
  rewrite fetchWithOption_cases. unfold none, some. split.
  - destruct (fetch (url request) (fetchInit request) w)
      as [[[resp|reason|]|e] w1] eqn:Hcall.
    + destruct (ok resp) eqn:Hok.
      * destruct (json resp w1) as [[[d|reason|]|e] w2] eqn:Hjson;
          intros H; try discriminate H; injection H as <-;
          right; right; right; exists resp, w1;
          (split; [reflexivity|split; [exact Hok|]]).
        -- right. now exists reason.
        -- left. now exists e.
      * intros [= <-]. right. right. left. now exists resp.
    + intros [= <-]. right. left. now exists reason.
    + intros H. discriminate H.
    + intros [= <-]. left. now exists e.
  - intros [(e & H) | [(reason & H) | [(resp & H & Hok)
             | (resp & w1 & H & Hok & [(e & Hj) | (reason & Hj)])]]];
      rewrite H; try rewrite Hok; try rewrite Hj; reflexivity.
Qed.
